(** * outils: output stream splitter, write counter and extension filter

    A shallow embedding of [outils.py] and the properties of its three
    parts:

    - [Splitter]: the class [osplitter], a state-and-exception monad over
      the platform (files and streams) and the splitter object;
    - [Counter]: the class [writecounter];
    - [ExtFilter]: [_has_ext], the generator [fileswithext] and the two
      list builders [getdatfiles] and [getlogfiles]. *)

From Stdlib Require Import List String Ascii ZArith Lia Bool Arith.
From Equations.Prop Require Import Equations Logic.
Import ListNotations.
Open Scope string_scope.
Open Scope list_scope.

(* ===================================================================== *)
(** ** The output stream splitter *)
(* ===================================================================== *)

Module Splitter.

(** A stream object is known by its identity. *)
Definition handle := nat.

(** What a caller may pass to [register]: an object with a [write]
    attribute, or anything else, which goes to [open] as a path name. *)
Inductive pyobj : Type :=
| Stream (h : handle)
| PathName (p : string).

(** The two attributes of an [osplitter] instance. *)
Record osplitter : Type := mk_osplitter {
  _files : list handle;
  _opened_here : list handle
}.

(** The history of calls: those the splitter makes on the platform and on
    its streams, and every entry into [osplitter.close].  The history is
    ghost state: the code never reads it. *)
Inductive call : Type :=
| CallOpen (p mode : string)
| CallWrite (h : handle) (msg : string)
| CallClose (h : handle)
| EnterClose.

Definition is_stream_close (c : call) : bool :=
  match c with
  | CallClose _ => true
  | _ => false
  end.

Definition is_enter_close (c : call) : bool :=
  match c with
  | EnterClose => true
  | _ => false
  end.

(** A call either raises or returns. *)
Inductive outcome (E A : Type) : Type :=
| Raised (e : E)
| Returned (a : A).
Arguments Raised {E A} e.
Arguments Returned {E A} a.

(** Computations over a state that survives an exception. *)
Definition comp (S E A : Type) : Type := S -> S * outcome E A.

Definition ret {S E A} (a : A) : comp S E A := fun s => (s, Returned a).

Definition bind {S E A B} (c : comp S E A) (k : A -> comp S E B)
  : comp S E B :=
  fun s =>
    match c s with
    | (s1, Raised e) => (s1, Raised e)
    | (s1, Returned a) => k a s1
    end.

Notation "x <- c ;; k" := (bind c (fun x => k))
  (at level 61, c at next level, right associativity).
Notation "c ;;; k" := (bind c (fun _ => k))
  (at level 61, right associativity).

(** The platform: the state of the file system and of every stream, the
    exceptions, and what [open(p, mode)], [f.write(msg)] and [f.close()]
    do.  Each of them may change the world, and either returns or
    raises.  The streams do not hold the splitter they are registered
    with: a call on a stream leaves the two lists of the splitter
    alone. *)
Class Platform : Type := {
  World : Type;
  Exn : Type;
  sys_open : string -> string -> World -> World * outcome Exn handle;
  stream_write : handle -> string -> World -> World * outcome Exn unit;
  stream_close : handle -> World -> World * outcome Exn unit
}.

Section Methods.

Context {P : Platform}.

Record state : Type := mk_state {
  env : World;
  calls : list call;
  self : osplitter
}.

(** The computations of the methods. *)
Definition M (A : Type) : Type := comp state Exn A.

(** [for x in xs: body x] *)
Fixpoint for_each {A} (xs : list A) (body : A -> M unit) : M unit :=
  match xs with
  | [] => ret tt
  | x :: rest => body x ;;; for_each rest body
  end.

Definition record (c : call) : M unit :=
  fun s => (mk_state (env s) (calls s ++ [c]) (self s), Returned tt).

Definition lift {A} (c : call) (f : World -> World * outcome Exn A) : M A :=
  fun s =>
    let (w, r) := f (env s) in
    (mk_state w (calls s ++ [c]) (self s), r).

Definition open (p mode : string) : M handle :=
  lift (CallOpen p mode) (sys_open p mode).

Definition f_write (h : handle) (msg : string) : M unit :=
  lift (CallWrite h msg) (stream_write h msg).

Definition f_close (h : handle) : M unit :=
  lift (CallClose h) (stream_close h).

Definition get_self : M osplitter := fun s => (s, Returned (self s)).

Definition set_files (l : list handle) : M unit :=
  fun s =>
    (mk_state (env s) (calls s) (mk_osplitter l (_opened_here (self s))),
     Returned tt).

Definition set_opened_here (l : list handle) : M unit :=
  fun s =>
    (mk_state (env s) (calls s) (mk_osplitter (_files (self s)) l),
     Returned tt).

(** *** The methods of [osplitter] *)

Definition _register_stream (f : handle) : M unit :=
  o <- get_self ;; set_files (_files o ++ [f]).

(** [mode='w'] when the caller gives none. *)
Definition mode_or_default (mode : option string) : string :=
  match mode with
  | Some m => m
  | None => "w"
  end.

(** The test [hasattr(f, 'write')] is the case analysis on [f]. *)
Definition register (f : pyobj) (mode : option string) : M bool :=
  match f with
  | Stream h => _register_stream h ;;; ret true
  | PathName p =>
      h <- open p (mode_or_default mode) ;;
      _register_stream h ;;;
      ret true
  end.

Definition __init__ (files : list pyobj) : M unit :=
  set_files [] ;;;
  set_opened_here [] ;;;
  for_each files (fun f => register f None ;;; ret tt).

Definition __len__ : M nat :=
  o <- get_self ;; ret (List.length (_files o)).

Definition write (msg : string) : M unit :=
  o <- get_self ;; for_each (_files o) (fun f => f_write f msg).

Definition close : M unit :=
  record EnterClose ;;;
  o <- get_self ;;
  for_each (_opened_here o) f_close ;;;
  set_files [] ;;;
  set_opened_here [].

Definition __enter__ : M osplitter := get_self.

Definition __exit__ (exc : option Exn) : M bool :=
  close ;;; ret false.

(** The [with] statement of the language, for a manager with the two
    methods above.  [None] is returned when [__exit__] asked for the
    exception of the block to be dropped. *)
Definition with_stmt {A} (block : osplitter -> M A) : M (option A) :=
  fun s =>
    match __enter__ s with
    | (s1, Raised e) => (s1, Raised e)
    | (s1, Returned v) =>
        match block v s1 with
        | (s2, Returned a) => (__exit__ None ;;; ret (Some a)) s2
        | (s2, Raised e) =>
            match __exit__ (Some e) s2 with
            | (s3, Raised e') => (s3, Raised e')
            | (s3, Returned true) => (s3, Returned None)
            | (s3, Returned false) => (s3, Raised e)
            end
        end
    end.

(** How many times [close] has been entered so far. *)
Definition closes_entered (s : state) : nat :=
  List.length (filter is_enter_close (calls s)).

(** *** Callers

    A caller holds one splitter and calls its methods one after the
    other, going on after an exception. *)
Inductive op : Type :=
| OpRegister (f : pyobj) (mode : option string)
| OpWrite (msg : string)
| OpClose
| OpLen
| OpEnter
| OpExit (exc : option Exn).

Inductive value : Type :=
| VNone
| VBool (b : bool)
| VInt (n : nat)
| VSelf (o : osplitter).

Definition call_op (o : op) : M value :=
  match o with
  | OpRegister f mode => b <- register f mode ;; ret (VBool b)
  | OpWrite msg => write msg ;;; ret VNone
  | OpClose => close ;;; ret VNone
  | OpLen => n <- __len__ ;; ret (VInt n)
  | OpEnter => v <- __enter__ ;; ret (VSelf v)
  | OpExit exc => b <- __exit__ exc ;; ret (VBool b)
  end.

Fixpoint run (ops : list op) (s : state)
  : state * list (op * outcome Exn value) :=
  match ops with
  | [] => (s, [])
  | o :: rest =>
      let (s1, r) := call_op o s in
      let (s2, rs) := run rest s1 in
      (s2, (o, r) :: rs)
  end.

(** The number of destinations a caller can count from what it did:
    one more for each [register] that returned, none after a [close]
    (or an [__exit__]) that returned. *)
Fixpoint tally (n : nat) (h : list (op * outcome Exn value)) : nat :=
  match h with
  | [] => n
  | (OpRegister _ _, Returned _) :: rest => tally (S n) rest
  | (OpClose, Returned _) :: rest => tally 0 rest
  | (OpExit _, Returned _) :: rest => tally 0 rest
  | _ :: rest => tally n rest
  end.

(** A state in which the splitter owns no handle and in which the
    [close] calls made on streams so far are [closes]. *)
Definition never_closing (closes : list call) (s : state) : Prop :=
  _opened_here (self s) = []
  /\ filter is_stream_close (calls s) = closes.

(** The calls that leave the destinations registered: all but [close]
    and [__exit__]. *)
Definition keeps_files (o : op) : bool :=
  match o with
  | OpClose => false
  | OpExit _ => false
  | _ => true
  end.

End Methods.

(** The path names among the arguments of the constructor, in order. *)
Fixpoint paths_of (files : list pyobj) : list string :=
  match files with
  | [] => []
  | Stream _ :: rest => paths_of rest
  | PathName p :: rest => p :: paths_of rest
  end.

(** The destination [h] stands for the argument [f]: the stream itself,
    or some handle for a path name. *)
Definition stands_for (f : pyobj) (h : handle) : Prop :=
  match f with
  | Stream h' => h = h'
  | PathName _ => True
  end.

End Splitter.

(* ===================================================================== *)
(** ** The write counter *)
(* ===================================================================== *)

Module Counter.

Record writecounter : Type := mk_writecounter {
  count : Z
}.

(** [initial_value=0] when the caller gives none. *)
Definition __init__ (initial_value : option Z) : writecounter :=
  match initial_value with
  | Some v => mk_writecounter v
  | None => mk_writecounter 0
  end.

Definition write (message : string) (c : writecounter) : writecounter :=
  mk_writecounter (count c + 1).

Definition tell (c : writecounter) : Z := count c.

(** One [write] for each message, in order. *)
Definition write_all (messages : list string) (c : writecounter)
  : writecounter :=
  fold_left (fun c m => write m c) messages c.

End Counter.

(** A platform whose streams are write counters: stream [h] is the
    counter [w h].  A [writecounter] has a [write] method and no [close]
    method, and this world has no file to open. *)
Module CounterStreams.

Import Splitter.

Inductive exn : Type :=
| AttributeError (attribute : string)
| IOError (filename : string).

Definition world : Type := handle -> Counter.writecounter.

Definition counters_open (p mode : string) (w : world)
  : world * outcome exn handle :=
  (w, Raised (IOError p)).

Definition counters_write (h : handle) (msg : string) (w : world)
  : world * outcome exn unit :=
  (fun h' => if Nat.eqb h' h then Counter.write msg (w h') else w h',
   Returned tt).

Definition counters_close (h : handle) (w : world)
  : world * outcome exn unit :=
  (w, Raised (AttributeError "close")).

Definition platform : Platform :=
  Build_Platform world exn counters_open counters_write counters_close.

(** How many times [h] is registered. *)
Definition times_registered (h : handle) (s : state (P := platform))
  : nat :=
  count_occ Nat.eq_dec (_files (self s)) h.

(** Fresh counters; a splitter on counters 0, 1 and 0 again; and one
    that has been made the owner of counter 1. *)
Definition w0 : world := fun _ => Counter.__init__ None.

Definition s0 : state (P := platform) :=
  mk_state (P := platform) w0 [] (mk_osplitter [0; 1; 0] []).

Definition s_owned : state (P := platform) :=
  mk_state (P := platform) w0 [] (mk_osplitter [0; 1] [1]).

End CounterStreams.

(* ===================================================================== *)
(** ** The extension filter *)
(* ===================================================================== *)

Module ExtFilter.

Section Filter.

(** [os.path.splitext], the path-splitting rule of the platform the
    script runs on. *)
Variable splitext : string -> string * string.

Definition _has_ext (filename ext : string) : bool :=
  let (fbase, fext) := splitext filename in
  String.eqb fext ext.

(** A generator made by [fileswithext]: the part of [args] its loop has
    not read yet, and [ext]. *)
Record generator : Type := mk_generator {
  pending : list string;
  target : string
}.

Definition fileswithext (args : list string) (ext : string) : generator :=
  mk_generator args ext.

(** The loop of the generator, from where it stands to its next [yield]:
    the name yielded and what is left to read, or [None] when the loop
    ends. *)
Fixpoint resume (args : list string) (ext : string)
  : option (string * list string) :=
  match args with
  | [] => None
  | fn :: rest =>
      if _has_ext fn ext then Some (fn, rest) else resume rest ext
  end.

(** [next(g)]: [None] stands for [StopIteration]. *)
Definition next (g : generator) : option (string * generator) :=
  match resume (pending g) (target g) with
  | Some (fn, rest) => Some (fn, mk_generator rest (target g))
  | None => None
  end.

(** [[f for f in g]]: call [next] until the generator stops. *)
Equations? collect (g : generator) : list string
  by wf (List.length (pending g)) lt :=
  collect g with inspect (next g) => {
    | exist _ (Some (fn, g')) _ := fn :: collect g';
    | exist _ None _ := []
  }.
Proof.
  clear collect.
  destruct g as [args ext]; unfold next in e; simpl in *.
  destruct (resume args ext) as [[fn' rest]|] eqn:R; [|discriminate].
  injection e as <- <-; simpl.
  revert R; induction args as [|a args IH]; simpl; [discriminate|].
  destruct (_has_ext a ext).
  - intros [= _ <-]. lia.
  - intros R. specialize (IH R). lia.
Qed.

(** A caller that calls [next] up to [k] times and stops at
    [StopIteration]: the names it got and the generator as it leaves
    it. *)
Fixpoint take_next (k : nat) (g : generator) : list string * generator :=
  match k with
  | O => ([], g)
  | S k' =>
      match next g with
      | Some (fn, g') =>
          let (got, g'') := take_next k' g' in (fn :: got, g'')
      | None => ([], g)
      end
  end.

(** [ext='.dat'] and [ext='.log'] when the caller gives none. *)
Definition ext_or (default : string) (ext : option string) : string :=
  match ext with
  | Some e => e
  | None => default
  end.

Definition getdatfiles (files : list string) (ext : option string)
  : list string :=
  collect (fileswithext files (ext_or ".dat" ext)).

Definition getlogfiles (files : list string) (ext : option string)
  : list string :=
  collect (fileswithext files (ext_or ".log" ext)).

(** What the specification asks of a filter: the names whose extension
    component equals the target, in the order of the input. *)
Definition spec_filter (paths : list string) (ext : string) : list string :=
  List.filter (fun fn => String.eqb (snd (splitext fn)) ext) paths.

End Filter.

End ExtFilter.

(* ===================================================================== *)
(** ** A platform to run the code on *)
(* ===================================================================== *)

Module Posix.

(** [p.rfind(c)] for a one-character [c]: the last index of [c] in [p],
    or -1. *)
Fixpoint rfind_from (p : string) (c : ascii) (i last : Z) : Z :=
  match p with
  | EmptyString => last
  | String a rest =>
      rfind_from rest c (i + 1) (if Ascii.eqb a c then i else last)
  end.

Definition rfind (p : string) (c : ascii) : Z := rfind_from p c 0 (-1).

(** [p[:i]] and [p[i:]] for [0 <= i]. *)
Definition slice_to (p : string) (i : Z) : string :=
  String.substring 0 (Z.to_nat i) p.

Definition slice_from (p : string) (i : Z) : string :=
  String.substring (Z.to_nat i) (String.length p - Z.to_nat i) p.

(** The loop [while filenameIndex < dotIndex] of [splitext], which skips
    the leading dots of the file name; [n] counts the indices left below
    [dotIndex].  [None] when the loop ends without a [return]. *)
Fixpoint skip_leading_dots (n : nat) (p : string)
    (filenameIndex dotIndex : Z) : option (string * string) :=
  match n with
  | O => None
  | S k =>
      match String.get (Z.to_nat filenameIndex) p with
      | Some c =>
          if Ascii.eqb c "."%char
          then skip_leading_dots k p (filenameIndex + 1) dotIndex
          else Some (slice_to p dotIndex, slice_from p dotIndex)
      | None => None
      end
  end.

(** Modelled from the spec: "the platform's standard path-splitting
    rule", that is [os.path.splitext], which belongs to the platform and
    not to [outils.py].  This is the rule of a POSIX platform
    ([posixpath.splitext]: separator [/], extension separator [.]). *)
Definition splitext (p : string) : string * string :=
  let sepIndex := rfind p "/"%char in
  let dotIndex := rfind p "."%char in
  if (dotIndex >? sepIndex)%Z then
    match skip_leading_dots (Z.to_nat (dotIndex - (sepIndex + 1))) p
            (sepIndex + 1) dotIndex with
    | Some r => r
    | None => (p, "")
    end
  else (p, "").

End Posix.

(** A small platform: files are made by [open] unless the mode is ["r"]
    and the name is unknown; a closed stream refuses to be written. *)
Module Demo.

Import Splitter.

Inductive exn : Type :=
| IOError (errno : nat) (filename : string)
| ValueError (message : string).

Record world : Type := mk_world {
  names : list string;
  next_handle : handle;
  written : list (handle * string);
  closed : list handle
}.

Definition demo_open (p mode : string) (w : world)
  : world * outcome exn handle :=
  if String.eqb mode "r" && negb (existsb (String.eqb p) (names w))
  then (w, Raised (IOError 2 p))
  else (mk_world (p :: names w) (S (next_handle w)) (written w) (closed w),
        Returned (next_handle w)).

Definition closed_file : exn := ValueError "I/O operation on closed file".

Definition demo_write (h : handle) (msg : string) (w : world)
  : world * outcome exn unit :=
  if existsb (Nat.eqb h) (closed w)
  then (w, Raised closed_file)
  else (mk_world (names w) (next_handle w) (written w ++ [(h, msg)])
          (closed w),
        Returned tt).

Definition demo_close (h : handle) (w : world)
  : world * outcome exn unit :=
  (mk_world (names w) (next_handle w) (written w) (h :: closed w),
   Returned tt).

Definition platform : Platform :=
  Build_Platform world exn demo_open demo_write demo_close.

(** No file yet; streams 0 and 1 are the caller's, stream 2 is one the
    caller has closed. *)
Definition w0 : world := mk_world [] 3 [] [2].

Definition s0 : state (P := platform) :=
  mk_state (P := platform) w0 [] (mk_osplitter [] []).

(** A splitter on the two open streams and on a file of its own, and one
    with the closed stream in the middle. *)
Definition s_ok : state (P := platform) :=
  fst (__init__ (P := platform)
         [Stream 0; PathName "out.log"; Stream 1] s0).

Definition s_bad : state (P := platform) :=
  fst (__init__ (P := platform) [Stream 0; Stream 2; Stream 1] s0).

(** The same platform, but for [open], which refuses the empty name in
    every mode. *)
Definition strict_open (p mode : string) (w : world)
  : world * outcome exn handle :=
  if String.eqb p "" then (w, Raised (IOError 2 p)) else demo_open p mode w.

Definition strict : Platform :=
  Build_Platform world exn strict_open demo_write demo_close.

Definition strict_s0 : state (P := strict) :=
  mk_state (P := strict) w0 [] (mk_osplitter [] []).

(** A splitter whose [_opened_here] has been filled from outside: it
    owns streams 1 and 0. *)
Definition s_owned : state (P := platform) :=
  mk_state (P := platform) w0 [] (mk_osplitter [0; 1] [1; 0]).

End Demo.

(* ===================================================================== *)
(** ** Properties of the splitter *)
(* ===================================================================== *)

Import Splitter.

(** Unfold one layer of the monad at the state the goal runs it on. *)
Ltac step_bind :=
  unfold bind, ret, get_self, set_files, set_opened_here, record, lift;
  simpl.

Section SplitterFacts.

Context {P : Platform}.

(** *** Loops *)

Lemma for_each_app {A} (xs ys : list A) (body : A -> M unit) (s : state) :
  for_each (xs ++ ys) body s = (for_each xs body ;;; for_each ys body) s.
Proof.
  revert s; induction xs as [|x xs IH]; intros s; simpl.
  - reflexivity.
  - unfold bind in *. destruct (body x s) as [s1 [e|[]]]; [reflexivity|].
    apply IH.
Qed.

(** What every turn of a loop keeps, the loop keeps. *)
Lemma for_each_inv {A} (I : state -> Prop) (xs : list A)
    (body : A -> M unit) :
  (forall x s, I s -> I (fst (body x s))) ->
  forall s, I s -> I (fst (for_each xs body s)).
Proof.
  intros Hbody. induction xs as [|x xs IH]; intros s Hs; simpl; [exact Hs|].
  unfold bind. specialize (Hbody x s Hs).
  destruct (body x s) as [s1 [e|[]]]; simpl in *; [assumption|].
  apply IH. assumption.
Qed.

(** A loop whose body leaves the splitter alone leaves it alone. *)
Lemma for_each_self {A} (xs : list A) (body : A -> M unit) :
  (forall x s, self (fst (body x s)) = self s) ->
  forall s, self (fst (for_each xs body s)) = self s.
Proof.
  intros Hbody s.
  apply (for_each_inv (fun s' => self s' = self s)); [|reflexivity].
  intros x s' Hs'. rewrite Hbody. exact Hs'.
Qed.

Lemma lift_self {A} (c : call) (f : World -> World * outcome Exn A) s :
  self (fst (lift c f s)) = self s.
Proof. unfold lift. destruct (f (env s)); reflexivity. Qed.

Lemma write_loop_self (l : list handle) (msg : string) (s : state) :
  self (fst (for_each l (fun f => f_write f msg) s)) = self s.
Proof. apply for_each_self. intros; apply lift_self. Qed.

(** The loop of [write] when every destination takes the data. *)
Lemma write_loop_returns (l : list handle) (msg : string) :
  forall s s',
    for_each l (fun f => f_write f msg) s = (s', Returned tt) ->
    calls s' = calls s ++ map (fun d => CallWrite d msg) l
    /\ env s' = fold_left (fun w d => fst (stream_write d msg w)) l (env s)
    /\ self s' = self s.
Proof.
  induction l as [|d l IH]; intros s s'; simpl.
  - unfold ret. intros [= <-]. rewrite app_nil_r. auto.
  - unfold bind, f_write, lift.
    destruct (stream_write d msg (env s)) as [w [e|[]]] eqn:W;
      [discriminate|].
    intros H. apply IH in H. simpl in H. destruct H as (Hc & He & Hs).
    rewrite Hc, He, Hs, <- app_assoc. auto.
Qed.

(** The loop of [write] when the destination after [pre] raises. *)
Lemma write_loop_raises (pre post : list handle) (d : handle) (msg : string)
    (s s1 : state) (e : Exn) :
  for_each pre (fun f => f_write f msg) s = (s1, Returned tt) ->
  snd (stream_write d msg (env s1)) = Raised e ->
  for_each (pre ++ d :: post) (fun f => f_write f msg) s =
    (mk_state (fst (stream_write d msg (env s1)))
       (calls s1 ++ [CallWrite d msg]) (self s1),
     Raised e).
Proof.
  intros Hpre Hd. rewrite for_each_app. unfold bind at 1. rewrite Hpre.
  simpl. unfold bind, f_write, lift.
  destruct (stream_write d msg (env s1)) as [w r]. simpl in *.
  rewrite Hd. reflexivity.
Qed.

(** *** write *)

(** C3.  When no destination's [write] raises, one call of
    [osplitter.write] makes exactly one [write] call with the same
    message on each registered destination, in the order of
    registration, and nothing else: the history grows by these calls,
    the world is what these calls make of it, the splitter is unchanged. *)
Theorem write_reaches_each_once (msg : string) (s s' : state) :
  write msg s = (s', Returned tt) ->
  calls s' = calls s ++ map (fun d => CallWrite d msg) (_files (self s))
  /\ env s' =
       fold_left (fun w d => fst (stream_write d msg w))
         (_files (self s)) (env s)
  /\ self s' = self s.
Proof.
  unfold write. step_bind. apply write_loop_returns.
Qed.

(** C4.  When the destinations before the k-th take the message and the
    [write] of the k-th raises [e], [osplitter.write] raises that same
    [e]; the calls made are one [write] on each of the first k-1
    destinations, in order, then the call on the k-th, and no other:
    nothing is undone or tried again, and the destinations after the
    k-th are not called. *)
Theorem write_stops_at_failure (msg : string) (s s1 : state)
    (pre post : list handle) (d : handle) (e : Exn) :
  _files (self s) = pre ++ d :: post ->
  for_each pre (fun f => f_write f msg) s = (s1, Returned tt) ->
  snd (stream_write d msg (env s1)) = Raised e ->
  exists s2,
    write msg s = (s2, Raised e)
    /\ calls s2 =
         calls s ++ map (fun d => CallWrite d msg) pre ++ [CallWrite d msg]
    /\ env s2 =
         fst (stream_write d msg
                (fold_left (fun w d => fst (stream_write d msg w)) pre
                   (env s)))
    /\ self s2 = self s.
Proof.
  intros Hfiles Hpre Hd.
  destruct (write_loop_returns pre msg s s1 Hpre) as (Hc & He & Hs).
  eexists. split.
  - unfold write. step_bind. rewrite Hfiles.
    apply write_loop_raises; eassumption.
  - simpl. rewrite Hc, He, Hs, <- app_assoc. auto.
Qed.

(** *** register *)

Lemma register_stream_eq (h : handle) (mode : option string) (s : state) :
  register (Stream h) mode s =
    (mk_state (env s) (calls s)
       (mk_osplitter (_files (self s) ++ [h]) (_opened_here (self s))),
     Returned true).
Proof. reflexivity. Qed.

Lemma register_path_eq (p : string) (mode : option string) (s : state) :
  register (PathName p) mode s =
    let m := mode_or_default mode in
    match sys_open p m (env s) with
    | (w, Raised e) =>
        (mk_state w (calls s ++ [CallOpen p m]) (self s), Raised e)
    | (w, Returned h) =>
        (mk_state w (calls s ++ [CallOpen p m])
           (mk_osplitter (_files (self s) ++ [h]) (_opened_here (self s))),
         Returned true)
    end.
Proof.
  unfold register, open. step_bind.
  destruct (sys_open p (mode_or_default mode) (env s)) as [w [e|h]];
    reflexivity.
Qed.

(** C5.  [register] returns [True] whenever it returns.  When [open]
    raises [e] on a path name, [register] raises that same [e] and the
    splitter is as it was, so the destinations registered before are
    all there, and none of them has been called: the one call made is
    the [open]. *)
Theorem register_true_or_raises (f : pyobj) (mode : option string)
    (s : state) :
  (forall b s', register f mode s = (s', Returned b) -> b = true)
  /\ (forall p e,
        f = PathName p ->
        snd (sys_open p (mode_or_default mode) (env s)) = Raised e ->
        exists s',
          register f mode s = (s', Raised e)
          /\ self s' = self s
          /\ calls s' = calls s ++ [CallOpen p (mode_or_default mode)]).
Proof.
  split.
  - intros b s'. destruct f as [h|p].
    + rewrite register_stream_eq. congruence.
    + rewrite register_path_eq. simpl.
      destruct (sys_open p (mode_or_default mode) (env s)) as [w [e|h]];
        congruence.
  - intros p e -> Hopen. rewrite register_path_eq. simpl.
    destruct (sys_open p (mode_or_default mode) (env s)) as [w r].
    simpl in Hopen. subst r. eexists. split; [reflexivity|]. auto.
Qed.

(** *** close *)

Lemma close_loop_self (l : list handle) (s : state) :
  self (fst (for_each l f_close s)) = self s.
Proof. apply for_each_self. intros; apply lift_self. Qed.

Lemma close_loop_enters (l : list handle) (s : state) :
  filter is_enter_close (calls (fst (for_each l f_close s))) =
  filter is_enter_close (calls s).
Proof.
  apply (for_each_inv
           (fun s' => filter is_enter_close (calls s') =
                      filter is_enter_close (calls s))); [|reflexivity].
  intros h s' Hs'. unfold f_close, lift.
  destruct (stream_close h (env s')) as [w r]. simpl.
  rewrite filter_app. simpl. rewrite app_nil_r. exact Hs'.
Qed.

(** With nothing in [_opened_here], [close] calls nothing and empties the
    splitter. *)
Lemma close_of_empty (s : state) :
  _opened_here (self s) = [] ->
  close s =
    (mk_state (env s) (calls s ++ [EnterClose]) (mk_osplitter [] []),
     Returned tt).
Proof.
  intros H. unfold close. step_bind. rewrite H. reflexivity.
Qed.

(** [close] either returns with the splitter empty or raises with the
    splitter as it was. *)
Lemma close_self (s : state) :
  match close s with
  | (s1, Returned _) => self s1 = mk_osplitter [] []
  | (s1, Raised _) => self s1 = self s
  end.
Proof.
  unfold close. step_bind.
  pose proof (close_loop_self (_opened_here (self s))
                (mk_state (env s) (calls s ++ [EnterClose]) (self s))) as H.
  destruct (for_each _ f_close _) as [s1 [e|[]]]; simpl in *.
  - exact H.
  - reflexivity.
Qed.

Lemma close_enters_once (s : state) :
  closes_entered (fst (close s)) = S (closes_entered s).
Proof.
  unfold closes_entered, close. step_bind.
  pose proof (close_loop_enters (_opened_here (self s))
                (mk_state (env s) (calls s ++ [EnterClose]) (self s))) as H.
  destruct (for_each _ f_close _) as [s1 [e|[]]]; simpl in *;
    rewrite H, filter_app, length_app; simpl; lia.
Qed.

(** *** The list of the files opened here *)

Lemma register_opened_here (f : pyobj) (mode : option string) (s : state) :
  _opened_here (self (fst (register f mode s))) = _opened_here (self s).
Proof.
  destruct f as [h|p].
  - reflexivity.
  - rewrite register_path_eq. simpl.
    destruct (sys_open p (mode_or_default mode) (env s)) as [w [e|h]];
      reflexivity.
Qed.

Lemma call_op_opened_here (o : op) (s : state) :
  _opened_here (self s) = [] ->
  _opened_here (self (fst (call_op o s))) = [].
Proof.
  intros H. destruct o as [f mode|msg| | | |exc]; simpl.
  - unfold bind. pose proof (register_opened_here f mode s) as R.
    destruct (register f mode s) as [s1 [e|b]]; simpl in *; congruence.
  - unfold bind at 1. unfold write. step_bind.
    pose proof (write_loop_self (_files (self s)) msg s) as W.
    destruct (for_each _ _ s) as [s1 [e|[]]]; simpl in *; congruence.
  - unfold bind. rewrite (close_of_empty s H). reflexivity.
  - exact H.
  - exact H.
  - unfold __exit__, bind. rewrite (close_of_empty s H). reflexivity.
Qed.

Lemma init_opened_here (files : list pyobj) (s0 : state) :
  _opened_here (self (fst (__init__ files s0))) = [].
Proof.
  unfold __init__. step_bind.
  apply (for_each_inv (fun s => _opened_here (self s) = []));
    [|reflexivity].
  intros f s H. unfold bind.
  pose proof (register_opened_here f None s) as R.
  destruct (register f None s) as [s1 [e|b]]; simpl in *; congruence.
Qed.

Lemma run_opened_here (ops : list op) :
  forall s, _opened_here (self s) = [] ->
            _opened_here (self (fst (run ops s))) = [].
Proof.
  induction ops as [|o ops IH]; intros s H; simpl; [exact H|].
  pose proof (call_op_opened_here o s H) as H1.
  destruct (call_op o s) as [s1 r]. simpl in H1. specialize (IH s1 H1).
  destruct (run ops s1) as [s2 rs]. exact IH.
Qed.

(** C2.  [_opened_here] is empty after the constructor, whether it
    returned or raised, and after any calls of the methods that follow
    it; so [close] there makes no call on any stream: it only empties the
    two lists. *)
Theorem opened_here_stays_empty (files : list pyobj) (ops : list op)
    (s0 : state) :
  let s := fst (run ops (fst (__init__ files s0))) in
  _opened_here (self s) = []
  /\ close s =
       (mk_state (env s) (calls s ++ [EnterClose]) (mk_osplitter [] []),
        Returned tt).
Proof.
  intros s.
  assert (H : _opened_here (self s) = []).
  { apply run_opened_here, init_opened_here. }
  split; [exact H | apply close_of_empty, H].
Qed.

(** *** The with statement *)

(** C6.  [__enter__] returns the splitter and changes nothing.  A block
    run under [with] ends in the state [close] makes of the state the
    block ended in, with [close] entered once more than before; when the
    block raised, the statement raises; and with [_opened_here] empty, as
    it always is, the statement raises the very exception of the block,
    or returns what the block returned. *)
Theorem with_stmt_closes_once {A} (block : osplitter -> M A) (s : state) :
  __enter__ s = (s, Returned (self s))
  /\ let s2 := fst (block (self s) s) in
     let r := snd (block (self s) s) in
     fst (with_stmt block s) = fst (close s2)
     /\ closes_entered (fst (with_stmt block s)) = S (closes_entered s2)
     /\ (forall e, r = Raised e ->
                   exists e', snd (with_stmt block s) = Raised e')
     /\ (_opened_here (self s2) = [] ->
         snd (with_stmt block s) =
           match r with
           | Raised e => Raised e
           | Returned a => Returned (Some a)
           end).
Proof.
  split; [reflexivity|].
  intros s2 r.
  assert (Hfst : fst (with_stmt block s) = fst (close s2)).
  { subst s2. unfold with_stmt, __enter__, get_self, __exit__.
    destruct (block (self s) s) as [s2 [e|a]]; simpl; unfold bind, ret;
      destruct (close s2) as [s3 [e'|[]]]; reflexivity. }
  split; [exact Hfst|].
  split; [rewrite Hfst; apply close_enters_once|].
  split.
  - intros e Hr. subst s2 r. unfold with_stmt, __enter__, get_self, __exit__.
    destruct (block (self s) s) as [s2 [e0|a]]; simpl in *; [|discriminate].
    unfold bind, ret. destruct (close s2) as [s3 [e'|[]]]; simpl; eauto.
  - intros Hempty. subst s2 r.
    unfold with_stmt, __enter__, get_self, __exit__.
    destruct (block (self s) s) as [s2 [e|a]]; simpl in *; unfold bind, ret;
      rewrite (close_of_empty s2 Hempty); reflexivity.
Qed.

(** *** Counting the destinations *)

Lemma len_eq (s : state) :
  __len__ s = (s, Returned (List.length (_files (self s)))).
Proof. reflexivity. Qed.

Lemma call_op_tally (o : op) (s : state) :
  List.length (_files (self (fst (call_op o s)))) =
  tally (List.length (_files (self s))) [(o, snd (call_op o s))].
Proof.
  destruct o as [f mode|msg| | | |exc]; simpl.
  - unfold bind. destruct f as [h|p].
    + rewrite register_stream_eq. simpl. rewrite length_app. simpl. lia.
    + rewrite register_path_eq. simpl.
      destruct (sys_open p (mode_or_default mode) (env s)) as [w [e|h]];
        simpl; [reflexivity|]. rewrite length_app. simpl. lia.
  - unfold bind at 1. unfold write. step_bind.
    pose proof (write_loop_self (_files (self s)) msg s) as W.
    destruct (for_each _ _ s) as [s1 [e|[]]]; simpl in *; rewrite W;
      reflexivity.
  - unfold bind. pose proof (close_self s) as C.
    destruct (close s) as [s1 [e|[]]]; simpl; rewrite C; reflexivity.
  - reflexivity.
  - reflexivity.
  - unfold __exit__, bind. pose proof (close_self s) as C.
    destruct (close s) as [s1 [e|[]]]; simpl; rewrite C; reflexivity.
Qed.

Lemma tally_app (h1 h2 : list (op * outcome Exn value)) :
  forall n, tally n (h1 ++ h2) = tally (tally n h1) h2.
Proof.
  induction h1 as [|[o r] h1 IH]; intros n; simpl; [reflexivity|].
  destruct o, r; apply IH.
Qed.

Lemma run_tally (ops : list op) :
  forall s,
    List.length (_files (self (fst (run ops s)))) =
    tally (List.length (_files (self s))) (snd (run ops s)).
Proof.
  induction ops as [|o ops IH]; intros s; [reflexivity|].
  cbn [run].
  pose proof (call_op_tally o s) as H1.
  destruct (call_op o s) as [s1 r]. cbn [fst snd] in H1. specialize (IH s1).
  destruct (run ops s1) as [s2 rs]. cbn [fst snd] in *.
  change ((o, r) :: rs) with ([(o, r)] ++ rs).
  rewrite tally_app, <- H1. exact IH.
Qed.

Lemma init_loop_length (files : list pyobj) :
  forall s s1,
    for_each files (fun f => register f None ;;; ret tt) s =
      (s1, Returned tt) ->
    List.length (_files (self s1)) =
    List.length (_files (self s)) + List.length files.
Proof.
  induction files as [|f files IH]; intros s s1; simpl.
  - unfold ret. intros [= <-]. lia.
  - unfold bind at 1 2.
    pose proof (call_op_tally (OpRegister f None) s) as T. simpl in T.
    unfold bind in T.
    destruct (register f None s) as [s' [e|b]]; [discriminate|].
    simpl in T. unfold ret at 1. intros H. apply IH in H. lia.
Qed.

(** C8.  After a constructor that returned, [__len__] is the number of
    [register] calls that have returned since the construction or since
    the last [close], the ones of the constructor among them; a stream
    registered twice is counted, and kept, twice; and a splitter made
    from no argument has no destination, so its [write] does nothing. *)
Theorem len_counts_registered :
  (forall (files : list pyobj) (ops : list op) (s0 s1 : state),
      __init__ files s0 = (s1, Returned tt) ->
      let s2 := fst (run ops s1) in
      __len__ s2 =
        (s2, Returned (tally (List.length files) (snd (run ops s1)))))
  /\ (forall (h : handle) (s : state),
        let s2 := fst (run [OpRegister (Stream h) None;
                            OpRegister (Stream h) None] s) in
        _files (self s2) = _files (self s) ++ [h; h]
        /\ __len__ s2 =
             (s2, Returned (S (S (List.length (_files (self s)))))))
  /\ (forall (s0 : state),
        let s1 := fst (__init__ [] s0) in
        __init__ [] s0 = (s1, Returned tt)
        /\ self s1 = mk_osplitter [] []
        /\ __len__ s1 = (s1, Returned 0)
        /\ forall msg, write msg s1 = (s1, Returned tt)).
Proof.
  split; [|split].
  - intros files ops s0 s1 Hinit s2. rewrite len_eq. subst s2.
    rewrite run_tally. do 3 f_equal.
    unfold __init__ in Hinit. revert Hinit. step_bind. intros Hinit.
    apply init_loop_length in Hinit. simpl in Hinit. exact Hinit.
  - intros h s s2. subst s2. simpl. rewrite <- app_assoc. simpl.
    split; [reflexivity|]. rewrite len_eq. simpl.
    rewrite !length_app. simpl. do 2 f_equal. lia.
  - intros s0 s1. subst s1. repeat split.
Qed.

End SplitterFacts.

(** *** The splitter on the small platform *)

(** C1.  The constructor is given an open stream and a path name.  The
    handle that [open] returns for the path name, 3, goes to [_files]
    but not to [_opened_here], and [close] then calls [close] on no
    stream at all: the file opened from the path name stays open.  Only
    the count of destinations is back to zero. *)
Theorem path_handle_never_closed :
  let s1 := fst (__init__ (P := Demo.platform)
                   [Stream 0; PathName "out.log"] Demo.s0) in
  let s2 := fst (close s1) in
  self s1 = mk_osplitter [0; 3] []
  /\ calls s1 = [CallOpen "out.log" "w"]
  /\ calls s2 = [CallOpen "out.log" "w"; EnterClose]
  /\ existsb is_stream_close (calls s2) = false
  /\ Demo.closed (env s2) = [2]
  /\ __len__ s2 = (s2, Returned 0).
Proof. repeat split. Qed.

Lemma write_reaches_each_once_witness :
  write "hi" Demo.s_ok = (fst (write "hi" Demo.s_ok), Returned tt)
  /\ calls (fst (write "hi" Demo.s_ok)) =
       calls Demo.s_ok
       ++ [CallWrite 0 "hi"; CallWrite 3 "hi"; CallWrite 1 "hi"]
  /\ Demo.written (env (fst (write "hi" Demo.s_ok))) =
       [(0, "hi"); (3, "hi"); (1, "hi")].
Proof.
  pose proof (write_reaches_each_once (P := Demo.platform) "hi"
                Demo.s_ok (fst (write "hi" Demo.s_ok)) eq_refl)
    as (Hcalls & Henv & _).
  split; [reflexivity|]. split; [exact Hcalls|].
  rewrite Henv. reflexivity.
Defined.

Lemma write_stops_at_failure_witness :
  _files (self Demo.s_bad) = [0] ++ 2 :: [1]
  /\ exists s2,
       write "hi" Demo.s_bad = (s2, Raised Demo.closed_file)
       /\ calls s2 = [CallWrite 0 "hi"; CallWrite 2 "hi"]
       /\ Demo.written (env s2) = [(0, "hi")]
       /\ self s2 = self Demo.s_bad.
Proof.
  split; [reflexivity|].
  destruct (write_stops_at_failure (P := Demo.platform) "hi" Demo.s_bad
              (fst (for_each [0] (fun f => f_write f "hi") Demo.s_bad))
              [0] [1] 2 Demo.closed_file eq_refl eq_refl eq_refl)
    as (s2 & Hw & Hcalls & Henv & Hself).
  exists s2. split; [exact Hw|]. split; [exact Hcalls|].
  split; [rewrite Henv; reflexivity | exact Hself].
Defined.

Lemma register_true_or_raises_witness :
  (exists s',
      register (PathName "nope") (Some "r") Demo.s_ok =
        (s', Raised (Demo.IOError 2 "nope"))
      /\ self s' = self Demo.s_ok
      /\ calls s' = calls Demo.s_ok ++ [CallOpen "nope" "r"])
  /\ register (PathName "out.log") (Some "r") Demo.s_ok =
       (fst (register (PathName "out.log") (Some "r") Demo.s_ok),
        Returned true)
  /\ true = true.
Proof.
  split.
  - exact (proj2 (register_true_or_raises (P := Demo.platform)
                    (PathName "nope") (Some "r") Demo.s_ok)
             "nope" (Demo.IOError 2 "nope") eq_refl eq_refl).
  - split; [reflexivity|].
    exact (proj1 (register_true_or_raises (P := Demo.platform)
                    (PathName "out.log") (Some "r") Demo.s_ok)
             true
             (fst (register (PathName "out.log") (Some "r") Demo.s_ok))
             eq_refl).
Defined.

Lemma with_stmt_closes_once_witness :
  snd (with_stmt (fun o : osplitter => write "hi") Demo.s_bad) =
    Raised Demo.closed_file
  /\ snd (with_stmt (fun o : osplitter => write "hi") Demo.s_ok) =
       Returned (Some tt)
  /\ closes_entered
       (fst (with_stmt (fun o : osplitter => write "hi") Demo.s_bad)) = 1.
Proof.
  destruct (with_stmt_closes_once (P := Demo.platform)
              (fun o : osplitter => write "hi") Demo.s_bad)
    as (_ & _ & Hn & Hraise & Hsame).
  destruct (with_stmt_closes_once (P := Demo.platform)
              (fun o : osplitter => write "hi") Demo.s_ok)
    as (_ & _ & _ & _ & Hsame').
  split; [exact (Hsame eq_refl)|].
  split; [exact (Hsame' eq_refl) | exact Hn].
Defined.

Lemma len_counts_registered_witness :
  let ops := [OpWrite "x"; OpRegister (PathName "nope") (Some "r");
              OpRegister (Stream 1) None; OpLen; OpClose;
              OpRegister (Stream 0) None] in
  snd (__len__ (fst (run [OpWrite "x";
                          OpRegister (PathName "nope") (Some "r");
                          OpRegister (Stream 1) None] Demo.s_ok))) =
    Returned 4
  /\ snd (__len__ (fst (run ops Demo.s_ok))) = Returned 1.
Proof.
  intros ops.
  pose proof (proj1 (len_counts_registered (P := Demo.platform))
                [Stream 0; PathName "out.log"; Stream 1]) as H.
  split.
  - rewrite (H _ Demo.s0 Demo.s_ok eq_refl). reflexivity.
  - rewrite (H ops Demo.s0 Demo.s_ok eq_refl). reflexivity.
Defined.

(* ===================================================================== *)
(** ** Properties of the write counter *)
(* ===================================================================== *)

Lemma write_all_count (messages : list string) :
  forall c : Counter.writecounter,
    Counter.count (Counter.write_all messages c) =
    (Counter.count c + Z.of_nat (List.length messages))%Z.
Proof.
  unfold Counter.write_all.
  induction messages as [|m messages IH]; intros c; simpl fold_left.
  - simpl. lia.
  - rewrite IH. unfold Counter.write. simpl Counter.count.
    change (List.length (m :: messages)) with (S (List.length messages)).
    lia.
Qed.

(** C7.  From any initial value [v], negative or not, [k] calls of
    [write], whatever the messages, leave [tell()] at [v + k], and the
    attribute [count] is what [tell()] returns; with no initial value the
    count starts at 0; from 5, three writes, one of them of the empty
    string, give 8. *)
Theorem tell_counts_writes :
  (forall (v : Z) (messages : list string),
      let c := Counter.write_all messages (Counter.__init__ (Some v)) in
      Counter.tell c = (v + Z.of_nat (List.length messages))%Z
      /\ Counter.count c = Counter.tell c)
  /\ (forall messages : list string,
        Counter.tell (Counter.write_all messages (Counter.__init__ None)) =
        Z.of_nat (List.length messages))
  /\ (forall (message : string) (c : Counter.writecounter),
        Counter.tell (Counter.write message c) = (Counter.tell c + 1)%Z)
  /\ (let c := Counter.write_all ["bla bla bla"; ""; "x"]
                 (Counter.__init__ (Some 5%Z)) in
      Counter.tell c = 8%Z /\ Counter.count c = 8%Z)
  /\ Counter.tell
       (Counter.write_all [""; ""] (Counter.__init__ (Some (-7)%Z))) =
     (-5)%Z.
Proof.
  split; [|split; [|split; [|split]]].
  - intros v messages c. subst c. unfold Counter.tell.
    rewrite write_all_count. simpl. auto.
  - intros messages. unfold Counter.tell. rewrite write_all_count.
    simpl. lia.
  - reflexivity.
  - split; reflexivity.
  - reflexivity.
Qed.

(* ===================================================================== *)
(** ** Properties of the extension filter *)
(* ===================================================================== *)

Section FilterFacts.

Import ExtFilter.

Variable splitext : string -> string * string.

Lemma has_ext_snd (filename ext : string) :
  _has_ext splitext filename ext = String.eqb (snd (splitext filename)) ext.
Proof. unfold _has_ext. destruct (splitext filename); reflexivity. Qed.

(** [collect] takes what [next] yields and goes on with the generator
    [next] leaves. *)
Lemma collect_step (g : generator) :
  collect splitext g =
  match next splitext g with
  | Some (fn, g') => fn :: collect splitext g'
  | None => []
  end.
Proof.
  rewrite collect_equation_1.
  destruct (inspect (next splitext g)) as [[[fn g']|] E]; simpl;
    rewrite E; reflexivity.
Qed.

Lemma collect_fileswithext (args : list string) (ext : string) :
  collect splitext (fileswithext args ext) = spec_filter splitext args ext.
Proof.
  unfold fileswithext, spec_filter.
  induction args as [|fn args IH].
  - rewrite collect_step. reflexivity.
  - rewrite collect_step. unfold next. simpl.
    rewrite <- has_ext_snd.
    destruct (_has_ext splitext fn ext).
    + simpl. rewrite IH. reflexivity.
    + rewrite <- IH. rewrite (collect_step (mk_generator args ext)).
      reflexivity.
Qed.

End FilterFacts.

(** C9.  Whatever the splitting rule of the platform, the names the
    generator yields are those of the input whose extension component is
    the target string, character for character, in the order of the
    input; under the POSIX rule the four names of the example give
    [a.dat; c.dat] for [.dat] and [b.log] for [.log], and an upper-case
    extension or one without its dot is not taken. *)
Theorem filter_keeps_matching_in_order :
  (forall (splitext : string -> string * string) (paths : list string)
          (ext : string),
      let result :=
        ExtFilter.collect splitext (ExtFilter.fileswithext paths ext) in
      result = ExtFilter.spec_filter splitext paths ext
      /\ forall fn, In fn result <->
                    In fn paths /\ snd (splitext fn) = ext)
  /\ ExtFilter.collect Posix.splitext
       (ExtFilter.fileswithext ["a.dat"; "b.log"; "c.dat"; "d.txt"] ".dat")
     = ["a.dat"; "c.dat"]
  /\ ExtFilter.collect Posix.splitext
       (ExtFilter.fileswithext ["a.dat"; "b.log"; "c.dat"; "d.txt"] ".log")
     = ["b.log"]
  /\ ExtFilter.getdatfiles Posix.splitext
       ["a.dat"; "b.log"; "c.dat"; "d.txt"] None = ["a.dat"; "c.dat"]
  /\ ExtFilter.getlogfiles Posix.splitext
       ["a.dat"; "b.log"; "c.dat"; "d.txt"] None = ["b.log"]
  /\ ExtFilter.collect Posix.splitext
       (ExtFilter.fileswithext ["a.DAT"; "b.dat"; "dat"; "c.dat.bak"] ".dat")
     = ["b.dat"]
  /\ ExtFilter.collect Posix.splitext
       (ExtFilter.fileswithext ["a.dat"; "b.dat"] "dat") = [].
Proof.
  split.
  - intros splitext paths ext result. subst result.
    rewrite collect_fileswithext. split; [reflexivity|].
    intros fn. unfold ExtFilter.spec_filter. rewrite filter_In.
    rewrite String.eqb_eq. reflexivity.
  - unfold ExtFilter.getdatfiles, ExtFilter.getlogfiles.
    rewrite !collect_fileswithext. repeat split.
Qed.

(** C10.  [getdatfiles] and [getlogfiles] given the same extension return
    the same list, the one [collect] makes of the generator
    [fileswithext] for that extension, which is the filtered input in its
    order; without an extension the first takes [.dat] and the second
    [.log], and there they differ. *)
Theorem dat_and_log_differ_by_default :
  (forall (splitext : string -> string * string) (paths : list string)
          (e : string),
      ExtFilter.getdatfiles splitext paths (Some e) =
        ExtFilter.getlogfiles splitext paths (Some e)
      /\ ExtFilter.getdatfiles splitext paths (Some e) =
           ExtFilter.collect splitext (ExtFilter.fileswithext paths e)
      /\ ExtFilter.getlogfiles splitext paths (Some e) =
           ExtFilter.collect splitext (ExtFilter.fileswithext paths e)
      /\ ExtFilter.collect splitext (ExtFilter.fileswithext paths e) =
           ExtFilter.spec_filter splitext paths e
      /\ ExtFilter.getdatfiles splitext paths None =
           ExtFilter.getdatfiles splitext paths (Some ".dat")
      /\ ExtFilter.getlogfiles splitext paths None =
           ExtFilter.getlogfiles splitext paths (Some ".log"))
  /\ ExtFilter.getdatfiles Posix.splitext ["a.dat"; "b.log"] None = ["a.dat"]
  /\ ExtFilter.getlogfiles Posix.splitext ["a.dat"; "b.log"] None = ["b.log"].
Proof.
  split.
  - intros splitext paths e. repeat split. apply collect_fileswithext.
  - unfold ExtFilter.getdatfiles, ExtFilter.getlogfiles.
    rewrite !collect_fileswithext. split; reflexivity.
Qed.

(* ===================================================================== *)
(** ** More on the splitter *)
(* ===================================================================== *)

Section SplitterMore.

Context {P : Platform}.

Lemma run_inv (I : state -> Prop) :
  (forall o s, I s -> I (fst (call_op o s))) ->
  forall ops s, I s -> I (fst (run ops s)).
Proof.
  intros Hop. induction ops as [|o ops IH]; intros s Hs; [exact Hs|].
  cbn [run]. specialize (Hop o s Hs).
  destruct (call_op o s) as [s1 r]. cbn [fst] in Hop.
  specialize (IH s1 Hop). destruct (run ops s1) as [s2 rs]. exact IH.
Qed.

(** *** The constructor *)

(** The loop of the constructor, when every argument gets registered. *)
Lemma init_loop_returns (files : list pyobj) :
  forall s s1,
    for_each files (fun f => register f None ;;; ret tt) s =
      (s1, Returned tt) ->
    exists hs,
      _files (self s1) = _files (self s) ++ hs
      /\ Forall2 stands_for files hs
      /\ calls s1 =
           calls s ++ map (fun p => CallOpen p "w") (paths_of files)
      /\ _opened_here (self s1) = _opened_here (self s).
Proof.
  induction files as [|f files IH]; intros s s1; simpl for_each.
  - unfold ret. intros [= <-]. exists []. simpl. rewrite !app_nil_r.
    auto.
  - unfold bind at 1 2. destruct f as [h|p].
    + rewrite register_stream_eq. unfold ret at 1. intros H.
      apply IH in H. simpl in H. destruct H as (hs & Hf & Hall & Hc & Ho).
      exists (h :: hs). rewrite Hf, Hc, Ho, <- app_assoc. simpl.
      repeat split; auto. constructor; [reflexivity | exact Hall].
    + rewrite register_path_eq. simpl.
      destruct (sys_open p "w" (env s)) as [w [e|h]]; [discriminate|].
      unfold ret at 1. intros H.
      apply IH in H. simpl in H. destruct H as (hs & Hf & Hall & Hc & Ho).
      exists (h :: hs). rewrite Hf, Hc, Ho, <- !app_assoc. simpl.
      repeat split; auto. constructor; [exact I | exact Hall].
Qed.


(** When the constructor would return on the arguments [pre] and [open]
    then raises [e] on the next argument, a path name, the constructor on
    all the arguments raises [e]: it has opened the path names of [pre]
    and tried this one, it has not looked at the arguments after it, and
    the destinations made for [pre] are still registered. *)
Theorem init_stops_at_failed_open (pre post : list pyobj) (p : string)
    (s0 s1 : state) (e : Exn) :
  __init__ pre s0 = (s1, Returned tt) ->
  snd (sys_open p "w" (env s1)) = Raised e ->
  exists s2,
    __init__ (pre ++ PathName p :: post) s0 = (s2, Raised e)
    /\ calls s2 =
         calls s0 ++ map (fun q => CallOpen q "w") (paths_of pre)
         ++ [CallOpen p "w"]
    /\ self s2 = self s1.
Proof.
  unfold __init__. step_bind. intros Hpre Hopen.
  destruct (init_loop_returns pre _ s1 Hpre) as (_ & _ & _ & Hc & _).
  simpl in Hc.
  rewrite for_each_app. unfold bind at 1. rewrite Hpre.
  cbn [for_each]. unfold bind. rewrite register_path_eq.
  cbn [mode_or_default].
  destruct (sys_open p "w" (env s1)) as [w r]. simpl in Hopen. subst r.
  eexists. split; [reflexivity|]. simpl. rewrite Hc, <- app_assoc. auto.
Qed.

(** *** What the methods never call *)

Lemma lift_never_closing {A} (c : call)
    (f : World -> World * outcome Exn A) (closes : list call) (s : state) :
  is_stream_close c = false ->
  never_closing closes s -> never_closing closes (fst (lift c f s)).
Proof.
  intros Hc [Ho Hf]. unfold lift. destruct (f (env s)) as [w r].
  split; simpl; [exact Ho|].
  rewrite filter_app. simpl. rewrite Hc, app_nil_r. exact Hf.
Qed.

Lemma register_never_closing (f : pyobj) (mode : option string)
    (closes : list call) (s : state) :
  never_closing closes s ->
  never_closing closes (fst (register f mode s)).
Proof.
  intros [Ho Hf]. destruct f as [h|p].
  - rewrite register_stream_eq. split; assumption.
  - rewrite register_path_eq. simpl.
    destruct (sys_open p (mode_or_default mode) (env s)) as [w [e|h]];
      split; simpl; try exact Ho;
      rewrite filter_app; simpl; rewrite app_nil_r; exact Hf.
Qed.

Lemma close_never_closing (closes : list call) (s : state) :
  never_closing closes s -> never_closing closes (fst (close s)).
Proof.
  intros [Ho Hf]. rewrite (close_of_empty s Ho). split; simpl.
  - reflexivity.
  - rewrite filter_app. simpl. rewrite app_nil_r. exact Hf.
Qed.

Lemma call_op_never_closing (closes : list call) (o : op) (s : state) :
  never_closing closes s -> never_closing closes (fst (call_op o s)).
Proof.
  intros H. destruct o as [f mode|msg| | | |exc]; simpl.
  - unfold bind. pose proof (register_never_closing f mode closes s H) as R.
    destruct (register f mode s) as [s1 [e|b]]; exact R.
  - unfold bind at 1.
    assert (W : never_closing closes (fst (write msg s))).
    { unfold write. step_bind.
      apply (for_each_inv (never_closing closes)); [|exact H].
      intros h s' Hs'. apply lift_never_closing; [reflexivity | exact Hs']. }
    destruct (write msg s) as [s1 [e|[]]]; exact W.
  - unfold bind. pose proof (close_never_closing closes s H) as C.
    destruct (close s) as [s1 [e|[]]]; exact C.
  - exact H.
  - exact H.
  - unfold __exit__, bind. pose proof (close_never_closing closes s H) as C.
    destruct (close s) as [s1 [e|[]]]; exact C.
Qed.

Lemma init_never_closing (files : list pyobj) (s0 : state) :
  never_closing (filter is_stream_close (calls s0))
    (fst (__init__ files s0)).
Proof.
  unfold __init__. step_bind.
  apply (for_each_inv
           (never_closing (filter is_stream_close (calls s0))));
    [|split; reflexivity].
  intros f s H.
  pose proof (register_never_closing f None _ s H) as R.
  destruct (register f None s) as [s1 [e|b]]; exact R.
Qed.

(** From the constructor on, whatever is called and whether it returns
    or raises, the splitter calls [close] on no stream: the files it
    opened from path names stay open, and so do the streams of the
    caller. *)
Theorem no_stream_ever_closed (files : list pyobj) (ops : list op)
    (s0 : state) :
  filter is_stream_close
    (calls (fst (run ops (fst (__init__ files s0))))) =
  filter is_stream_close (calls s0).
Proof.
  apply (run_inv (never_closing (filter is_stream_close (calls s0)))).
  - intros o s. apply call_op_never_closing.
  - apply init_never_closing.
Qed.

(** *** After close *)

(** Once [close] has returned the splitter has no destination: a [write]
    returns without calling anything, so the message is dropped and no
    error tells of it; and a second [close] calls nothing either. *)
Theorem write_after_close_is_dropped (s s1 : state) :
  close s = (s1, Returned tt) ->
  (forall msg, write msg s1 = (s1, Returned tt))
  /\ __len__ s1 = (s1, Returned 0)
  /\ close s1 =
       (mk_state (env s1) (calls s1 ++ [EnterClose]) (self s1),
        Returned tt).
Proof.
  intros H. pose proof (close_self s) as C. rewrite H in C.
  destruct s1 as [w cs o]. simpl in C. subst o.
  split; [|split]; try reflexivity.
Qed.

(** *** The destinations between two closes *)

Lemma call_op_keeps_files (o : op) (s : state) :
  keeps_files o = true ->
  exists l, _files (self (fst (call_op o s))) = _files (self s) ++ l.
Proof.
  intros Hk. destruct o as [f mode|msg| | | |exc]; try discriminate; simpl.
  - unfold bind. destruct f as [h|p].
    + rewrite register_stream_eq. simpl. eauto.
    + rewrite register_path_eq. simpl.
      destruct (sys_open p (mode_or_default mode) (env s)) as [w [e|h]];
        simpl; [exists []; rewrite app_nil_r; reflexivity | eauto].
  - exists []. rewrite app_nil_r. unfold bind at 1. unfold write. step_bind.
    pose proof (write_loop_self (_files (self s)) msg s) as W.
    destruct (for_each _ _ s) as [s1 [e|[]]]; simpl in *; rewrite W;
      reflexivity.
  - exists []. rewrite app_nil_r. reflexivity.
  - exists []. rewrite app_nil_r. reflexivity.
Qed.

(** As long as neither [close] nor [__exit__] is called, the
    destinations already registered stay registered, in their places:
    [register] adds at the end, and a call that raises, a failed [write]
    among them, removes nothing. *)
Theorem files_only_grow (ops : list op) :
  forall s : state,
    forallb keeps_files ops = true ->
    exists l, _files (self (fst (run ops s))) = _files (self s) ++ l.
Proof.
  induction ops as [|o ops IH]; intros s Hk.
  - exists []. rewrite app_nil_r. reflexivity.
  - simpl in Hk. apply andb_prop in Hk. destruct Hk as [Ho Hops].
    cbn [run]. destruct (call_op_keeps_files o s Ho) as [l1 H1].
    destruct (call_op o s) as [s1 r]. cbn [fst] in H1.
    destruct (IH s1 Hops) as [l2 H2].
    destruct (run ops s1) as [s2 rs]. cbn [fst] in *.
    exists (l1 ++ l2). rewrite H2, H1, app_assoc. reflexivity.
Qed.

(** *** close on a filled [_opened_here] *)

Lemma close_loop_returns (l : list handle) :
  forall s s',
    for_each l f_close s = (s', Returned tt) ->
    calls s' = calls s ++ map CallClose l
    /\ env s' = fold_left (fun w h => fst (stream_close h w)) l (env s)
    /\ self s' = self s.
Proof.
  induction l as [|h l IH]; intros s s'; simpl.
  - unfold ret. intros [= <-]. rewrite app_nil_r. auto.
  - unfold bind, f_close, lift.
    destruct (stream_close h (env s)) as [w [e|[]]] eqn:W;
      [discriminate|].
    intros H. apply IH in H. simpl in H. destruct H as (Hc & He & Hs).
    rewrite Hc, He, Hs, <- app_assoc. auto.
Qed.

(** The methods never fill [_opened_here], but [close] reads it: on any
    contents, a [close] that returns has called [close] once on each
    handle of the list, in order, and on no other destination, and has
    emptied both lists. *)
Theorem close_closes_opened_here (s s1 : state) :
  close s = (s1, Returned tt) ->
  calls s1 =
    calls s ++ EnterClose :: map CallClose (_opened_here (self s))
  /\ env s1 =
       fold_left (fun w h => fst (stream_close h w))
         (_opened_here (self s)) (env s)
  /\ self s1 = mk_osplitter [] [].
Proof.
  unfold close. step_bind.
  destruct (for_each _ f_close _) as [s' [e|[]]] eqn:L; [discriminate|].
  apply close_loop_returns in L. simpl in L. destruct L as (Hc & He & Hs).
  intros [= <-]. simpl. rewrite Hc, He, <- app_assoc. auto.
Qed.

(** When the [close] of a handle of [_opened_here] raises [e], after the
    handles before it were closed, [osplitter.close] raises [e] and stops
    there: the handles after it are not closed and neither list is
    emptied, so the splitter still has all its destinations. *)
Theorem close_stops_at_failure (s s1 : state) (pre post : list handle)
    (h : handle) (e : Exn) :
  _opened_here (self s) = pre ++ h :: post ->
  for_each pre f_close
    (mk_state (env s) (calls s ++ [EnterClose]) (self s)) =
    (s1, Returned tt) ->
  snd (stream_close h (env s1)) = Raised e ->
  exists s2,
    close s = (s2, Raised e)
    /\ calls s2 =
         calls s ++ EnterClose :: map CallClose pre ++ [CallClose h]
    /\ self s2 = self s.
Proof.
  intros Ho Hpre Hh.
  destruct (close_loop_returns pre _ s1 Hpre) as (Hc & _ & Hs).
  simpl in Hc, Hs.
  unfold close. step_bind. rewrite Ho, for_each_app.
  unfold bind at 1. rewrite Hpre. cbn [for_each].
  unfold bind, f_close, lift.
  destruct (stream_close h (env s1)) as [w r]. simpl in Hh. subst r.
  eexists. split; [reflexivity|]. simpl.
  rewrite Hc, Hs, <- !app_assoc. auto.
Qed.

End SplitterMore.


Lemma init_stops_at_failed_open_witness :
  exists s2,
    __init__ (P := Demo.strict)
      ([PathName "a.log"; Stream 0] ++ PathName "" :: [PathName "b.log"])
      Demo.strict_s0 =
      (s2, Raised (Demo.IOError 2 ""))
    /\ calls s2 = [CallOpen "a.log" "w"; CallOpen "" "w"]
    /\ _files (self s2) = [3; 0].
Proof.
  destruct (init_stops_at_failed_open (P := Demo.strict)
              [PathName "a.log"; Stream 0] [PathName "b.log"] ""
              Demo.strict_s0
              (fst (__init__ (P := Demo.strict)
                      [PathName "a.log"; Stream 0] Demo.strict_s0))
              (Demo.IOError 2 "") eq_refl eq_refl)
    as (s2 & H & Hc & Hs).
  exists s2. split; [exact H|]. split; [exact Hc|].
  rewrite Hs. reflexivity.
Defined.

Lemma write_after_close_is_dropped_witness :
  close Demo.s_ok = (fst (close Demo.s_ok), Returned tt)
  /\ write "lost" (fst (close Demo.s_ok)) =
       (fst (close Demo.s_ok), Returned tt)
  /\ Demo.written (env (fst (write "lost" (fst (close Demo.s_ok))))) = [].
Proof.
  destruct (write_after_close_is_dropped (P := Demo.platform)
              Demo.s_ok (fst (close Demo.s_ok)) eq_refl) as (Hw & _ & _).
  split; [reflexivity|]. split; [exact (Hw "lost")|].
  rewrite (Hw "lost"). reflexivity.
Defined.

Lemma files_only_grow_witness :
  exists l,
    _files (self (fst (run [OpRegister (Stream 1) None; OpWrite "x";
                            OpRegister (PathName "nope") (Some "r");
                            OpRegister (PathName "new.log") None]
                         Demo.s_bad))) =
    [0; 2; 1] ++ l.
Proof.
  exact (files_only_grow (P := Demo.platform)
           [OpRegister (Stream 1) None; OpWrite "x";
            OpRegister (PathName "nope") (Some "r");
            OpRegister (PathName "new.log") None]
           Demo.s_bad eq_refl).
Defined.

Lemma close_closes_opened_here_witness :
  close Demo.s_owned = (fst (close Demo.s_owned), Returned tt)
  /\ calls (fst (close Demo.s_owned)) =
       [EnterClose; CallClose 1; CallClose 0]
  /\ Demo.closed (env (fst (close Demo.s_owned))) = [0; 1; 2]
  /\ self (fst (close Demo.s_owned)) = mk_osplitter [] [].
Proof.
  destruct (close_closes_opened_here (P := Demo.platform)
              Demo.s_owned (fst (close Demo.s_owned)) eq_refl)
    as (Hc & He & Hs).
  split; [reflexivity|]. split; [exact Hc|].
  split; [rewrite He; reflexivity | exact Hs].
Defined.

Lemma close_stops_at_failure_witness :
  exists s2,
    close CounterStreams.s_owned =
      (s2, Raised (CounterStreams.AttributeError "close"))
    /\ calls s2 = [EnterClose; CallClose 1]
    /\ self s2 = mk_osplitter [0; 1] [1].
Proof.
  exact (close_stops_at_failure (P := CounterStreams.platform)
           CounterStreams.s_owned
           (mk_state (P := CounterStreams.platform)
              CounterStreams.w0 [EnterClose] (mk_osplitter [0; 1] [1]))
           [] [] 1 (CounterStreams.AttributeError "close")
           eq_refl eq_refl eq_refl).
Defined.

(* ===================================================================== *)
(** ** Write counters behind a splitter *)
(* ===================================================================== *)

Lemma counters_write_loop (l : list handle) (msg : string) :
  forall s : state (P := CounterStreams.platform),
    snd (for_each l (fun f => f_write f msg) s) = Returned tt
    /\ forall h : handle,
         Counter.count
           (env (fst (for_each l (fun f => f_write f msg) s)) h) =
         (Counter.count (env s h)
          + Z.of_nat (count_occ Nat.eq_dec l h))%Z.
Proof.
  induction l as [|d l IH]; intros s.
  - split; [reflexivity|]. intros h. simpl. lia.
  - cbn [for_each]. unfold bind, f_write, lift. simpl stream_write.
    unfold CounterStreams.counters_write.
    match goal with
    | |- context [for_each l _ ?s1] => destruct (IH s1) as [Hr Hc]
    end.
    split; [exact Hr|]. intros h. rewrite Hc. simpl env. cbn [count_occ].
    destruct (Nat.eq_dec d h) as [->|Hne].
    + rewrite Nat.eqb_refl. unfold Counter.write. simpl Counter.count. lia.
    + destruct (Nat.eqb_spec h d) as [->|_]; [congruence|]. lia.
Qed.

(** When the destinations are write counters, a [write] on the splitter
    always returns, and it moves each counter forward by the number of
    times that counter is registered: by 2 if it was registered twice,
    by 0 if it is not a destination. *)
Theorem splitter_feeds_counters (msg : string)
    (s : state (P := CounterStreams.platform)) :
  snd (write msg s) = Returned tt
  /\ forall h : handle,
       Counter.tell (env (fst (write msg s)) h) =
       (Counter.tell (env s h)
        + Z.of_nat (CounterStreams.times_registered h s))%Z.
Proof.
  unfold write, Counter.tell, CounterStreams.times_registered. step_bind.
  apply counters_write_loop.
Qed.

(* ===================================================================== *)
(** ** More on the extension filter *)
(* ===================================================================== *)

Section FilterMore.

Import ExtFilter.

Variable splitext : string -> string * string.

Lemma spec_filter_app (a b : list string) (ext : string) :
  spec_filter splitext (a ++ b) ext =
  spec_filter splitext a ext ++ spec_filter splitext b ext.
Proof. unfold spec_filter. apply filter_app. Qed.

Lemma spec_filter_twice (paths : list string) (e1 e2 : string) :
  spec_filter splitext (spec_filter splitext paths e1) e2 =
  if String.eqb e1 e2 then spec_filter splitext paths e1 else [].
Proof.
  unfold spec_filter. induction paths as [|fn paths IH]; simpl.
  - destruct (String.eqb e1 e2); reflexivity.
  - destruct (String.eqb_spec (snd (splitext fn)) e1) as [E1|N1]; simpl.
    + rewrite IH, E1. destruct (String.eqb e1 e2); reflexivity.
    + exact IH.
Qed.

(** Names taken for one extension hold none with another extension: with
    the defaults, no data file is a log file. *)
Theorem log_files_of_dat_files (paths : list string)
    (e1 e2 : option string) :
  ext_or ".dat" e1 <> ext_or ".log" e2 ->
  getlogfiles splitext (getdatfiles splitext paths e1) e2 = []
  /\ getdatfiles splitext (getlogfiles splitext paths e2) e1 = [].
Proof.
  intros Hne. unfold getlogfiles, getdatfiles.
  rewrite !collect_fileswithext, !spec_filter_twice.
  destruct (String.eqb_spec (ext_or ".dat" e1) (ext_or ".log" e2));
    [contradiction|].
  destruct (String.eqb_spec (ext_or ".log" e2) (ext_or ".dat" e1));
    [congruence|].
  split; reflexivity.
Qed.

(** Filtering a second time for the same extension changes nothing. *)
Theorem getdatfiles_idempotent (paths : list string) (e : option string) :
  getdatfiles splitext (getdatfiles splitext paths e) e =
    getdatfiles splitext paths e
  /\ getlogfiles splitext (getlogfiles splitext paths e) e =
       getlogfiles splitext paths e.
Proof.
  unfold getlogfiles, getdatfiles.
  rewrite !collect_fileswithext, !spec_filter_twice, !String.eqb_refl.
  split; reflexivity.
Qed.

(** The names are taken one by one: the result for two lists put end to
    end is the two results put end to end, and no argument gives no
    name. *)
Theorem getdatfiles_app (a b : list string) (e : option string) :
  getdatfiles splitext (a ++ b) e =
    getdatfiles splitext a e ++ getdatfiles splitext b e
  /\ getlogfiles splitext (a ++ b) e =
       getlogfiles splitext a e ++ getlogfiles splitext b e
  /\ getdatfiles splitext [] e = []
  /\ getlogfiles splitext [] e = [].
Proof.
  unfold getlogfiles, getdatfiles.
  rewrite !collect_fileswithext, !spec_filter_app.
  repeat split.
Qed.

Lemma take_next_collect (k : nat) :
  forall g : generator,
    fst (take_next splitext k g) = firstn k (collect splitext g)
    /\ collect splitext (snd (take_next splitext k g)) =
         skipn k (collect splitext g).
Proof.
  induction k as [|k IH]; intros g.
  - split; reflexivity.
  - rewrite (collect_step splitext g). cbn [take_next].
    destruct (next splitext g) as [[fn g']|] eqn:N.
    + destruct (IH g') as [H1 H2].
      destruct (take_next splitext k g') as [got g'']. simpl in *.
      rewrite H1, H2. split; reflexivity.
    + simpl. rewrite (collect_step splitext g), N. split; reflexivity.
Qed.

(** A generator is read once: after [k] calls of [next], which gave the
    first [k] matching names in order (fewer when there are fewer), a
    list made from the same generator holds the matching names after
    those only. *)
Theorem generator_is_single_pass (k : nat) (paths : list string)
    (ext : string) :
  let g := fileswithext paths ext in
  fst (take_next splitext k g) = firstn k (spec_filter splitext paths ext)
  /\ collect splitext (snd (take_next splitext k g)) =
       skipn k (spec_filter splitext paths ext).
Proof.
  intros g. subst g. rewrite <- collect_fileswithext.
  apply take_next_collect.
Qed.

End FilterMore.

Lemma log_files_of_dat_files_witness :
  ".dat" <> ".log"
  /\ ExtFilter.getlogfiles Posix.splitext
       (ExtFilter.getdatfiles Posix.splitext
          ["a.dat"; "b.log"; "c.dat"] None) None = []
  /\ ExtFilter.getdatfiles Posix.splitext
       (ExtFilter.getlogfiles Posix.splitext
          ["a.dat"; "b.log"; "c.dat"] None) None = [].
Proof.
  split; [discriminate|].
  apply (log_files_of_dat_files Posix.splitext
           ["a.dat"; "b.log"; "c.dat"] None None).
  simpl. discriminate.
Defined.

(* ===================================================================== *)
(** ** The splitter after a with statement *)
(* ===================================================================== *)

Section SplitterScope.

Context {P : Platform}.



End SplitterScope.

